(** * jwtauth: a JWT authentication gate for chi handlers

    A shallow embedding of [jwtauth.go].  The package wires three things
    together: the jwt-go library (signing, parsing and verifying tokens),
    the request data of net/http (query string, headers, cookies) and the
    chi handler chain.  The embedding keeps the package's own code as
    functions and takes what the package imports as an interface:

    - jwt-go is the class [JwtGo] below: its operations are fields, and a
      property of the library that a theorem needs is a hypothesis of that
      theorem, stated on those fields;
    - a request is given by what the accessors [r.URL.Query()], [r.Header]
      and [r.Cookies()] return;
    - the response writer and the next handler are observed through what the
      handler does with them: it either calls [http.Error] or calls
      [next.ServeHTTPC] with the context it built. *)

From Stdlib Require Import ZArith String Ascii List Bool Lia.
From Stdlib Require Import Strings.Byte.
From stdpp Require Import base decidable option gmap strings list.

Local Open Scope string_scope.

(** ** Go values *)

(** A slice; [None] is the nil slice. *)
Definition slice (A : Type) : Type := option (list A).

Definition len {A : Type} (s : slice A) : nat :=
  match s with
  | None => 0
  | Some l => length l
  end.

Definition is_nil {A : Type} (s : slice A) : bool :=
  match s with
  | None => true
  | Some _ => false
  end.

(** The elements a [for ... range] loop visits. *)
Definition range {A : Type} (s : slice A) : list A :=
  match s with
  | None => []
  | Some l => l
  end.

(** The dynamic values an [interface{}] holds in a claim set.  [VFloat64]
    carries the 64 bits of the number; [VChan] stands for the values that
    have no JSON form. *)
Inductive Value : Type :=
| VNil
| VBool (b : bool)
| VInt (n : Z)
| VInt64 (n : Z)
| VFloat64 (bits : Z)
| VString (s : string)
| VChan (id : positive).

#[global] Instance Value_eq_dec : EqDecision Value.
Proof. solve_decision. Defined.

#[global] Instance byte_eq_dec : EqDecision Byte.byte := Byte.byte_eq_dec.

(** [v.(int64)] in its comma-ok form, applied to the result of a map index
    expression: a missing key gives the nil interface, on which the
    assertion fails like on any value of another dynamic type. *)
Definition assert_int64 (v : option Value) : option Z :=
  match v with
  | Some (VInt64 n) => Some n
  | _ => None
  end.

(** An [error] is observed through its message. *)
Definition error : Type := string.
Definition errors_New (text : string) : error := text.
Definition Error (e : error) : string := e.

Definition errUnauthorized : error := errors_New "unauthorized token".

(** ** The jwt-go interface *)

(** [jwt.Token]. *)
Record Token (M : Type) : Type := mkToken {
  Raw : string;
  Method : option M;
  Header : gmap string Value;
  Claims : gmap string Value;
  Signature : string;
  Valid : bool
}.
Arguments mkToken {M}.
Arguments Raw {M}.
Arguments Method {M}.
Arguments Header {M}.
Arguments Claims {M}.
Arguments Signature {M}.
Arguments Valid {M}.



(** [jwt.Keyfunc]: the callback through which the parser asks for the key. *)
Definition Keyfunc (M : Type) : Type := Token M -> slice Byte.byte * option error.

(** What the package uses of jwt-go.  A [SigningMethod] is an interface
    value; the package compares two of them with [!=], so the type has a
    decidable equality.  [jwt_New] builds the header from [method.Alg()] and
    so takes a method, not a nil interface.  The two parsers return a token
    pointer ([None] is nil) and an error ([None] is nil). *)
Class JwtGo : Type := {
  SigningMethod : Type;
  SigningMethod_eq_dec :: EqDecision SigningMethod;
  Parser : Type;
  GetSigningMethod : string -> option SigningMethod;
  jwt_New : SigningMethod -> Token SigningMethod;
  SignedString : Token SigningMethod -> slice Byte.byte -> string * option error;
  jwt_Parse : string -> Keyfunc SigningMethod ->
              option (Token SigningMethod) * option error;
  Parser_Parse : Parser -> string -> Keyfunc SigningMethod ->
                 option (Token SigningMethod) * option error
}.

(** ** net/url, net/http, strings, context *)

(** [url.Values.Get] and, for a canonical key, [http.Header.Get]: the first
    value stored under the key, the empty string when there is none. *)
Definition Values_Get (v : gmap string (list string)) (key : string) : string :=
  match v !! key with
  | Some (x :: _) => x
  | _ => ""
  end.

Definition Header_Get (h : gmap string (list string)) (key : string) : string :=
  Values_Get h key.

Record Cookie : Type := mkCookie {
  Cookie_Name : string;
  Cookie_Value : string
}.

Record Request : Type := mkRequest {
  URL_Query : gmap string (list string);
  Request_Header : gmap string (list string);
  Cookies : list Cookie
}.

(** [r.Cookie(name)]: the first cookie of that name, [None] for
    [http.ErrNoCookie]. *)
Fixpoint Request_Cookie_in (cs : list Cookie) (name : string) : option Cookie :=
  match cs with
  | [] => None
  | c :: cs' =>
      if decide (Cookie_Name c = name) then Some c else Request_Cookie_in cs' name
  end.

Definition Request_Cookie (r : Request) (name : string) : option Cookie :=
  Request_Cookie_in (Cookies r) name.

(** [strings.ToUpper], byte by byte.  On a string of ASCII bytes this is
    the library function.  A byte above 127 is kept here; the library maps
    the rune it belongs to a rune outside ASCII, or to I or S (from U+0131
    and U+017F).  The package compares the result with the word BEARER only,
    which has neither letter, so that comparison has the same answer. *)
Definition upper_byte (c : ascii) : ascii :=
  let n := nat_of_ascii c in
  if (97 <=? n)%nat && (n <=? 122)%nat then ascii_of_nat (n - 32) else c.

Fixpoint ToUpper (s : string) : string :=
  match s with
  | EmptyString => EmptyString
  | String c s' => String (upper_byte c) (ToUpper s')
  end.

(** The slice expressions [s[lo:hi]] and [s[lo:]], within bounds. *)
Definition slice_str (s : string) (lo hi : nat) : string := substring lo (hi - lo) s.
Definition slice_from (s : string) (lo : nat) : string :=
  substring lo (String.length s - lo) s.

(** [context.Context] as the chain of values put on it, newest first. *)
Inductive CtxValue (M : Type) : Type :=
| CtxString (s : string)
| CtxToken (t : Token M).
Arguments CtxString {M}.
Arguments CtxToken {M}.

Definition Context (M : Type) : Type := list (string * CtxValue M).

Definition context_WithValue {M} (ctx : Context M) (key : string) (val : CtxValue M)
  : Context M := (key, val) :: ctx.

Fixpoint context_Value {M} (ctx : Context M) (key : string) : option (CtxValue M) :=
  match ctx with
  | [] => None
  | (k, v) :: parent => if decide (k = key) then Some v else context_Value parent key
  end.

(** What one run of the handler does: it answers through [http.Error] and
    returns, or it calls [next.ServeHTTPC] with a context (and with the
    writer and the request it was given), or it dereferences a nil token. *)
Inductive Outcome (M : Type) : Type :=
| HttpError (msg : string) (code : Z)
| ServeNext (ctx : Context M)
| NilDereference.
Arguments HttpError {M}.
Arguments ServeNext {M}.
Arguments NilDereference {M}.

(** ** The package *)

Section jwtauth.

Context `{L : JwtGo}.

Abbreviation token := (Token SigningMethod).

Record JwtAuth : Type := mkJwtAuth {
  signKey : slice Byte.byte;
  verifyKey : slice Byte.byte;
  signer : option SigningMethod;
  parser : option Parser
}.

Definition New (alg : string) (signKey verifyKey : slice Byte.byte) : JwtAuth :=
  {| signKey := signKey;
     verifyKey := verifyKey;
     signer := GetSigningMethod alg;
     parser := None |}.

Definition NewWithParser (alg : string) (parser : option Parser)
    (signKey verifyKey : slice Byte.byte) : JwtAuth :=
  {| signKey := signKey;
     verifyKey := verifyKey;
     signer := GetSigningMethod alg;
     parser := parser |}.


Definition keyFunc (ja : JwtAuth) (t : token) : slice Byte.byte * option error :=
  if negb (is_nil (verifyKey ja)) && (0 <? len (verifyKey ja))%nat
  then (verifyKey ja, None)
  else (signKey ja, None).

Definition Decode (ja : JwtAuth) (tokenString : string)
  : option token * option error :=
  match parser ja with
  | Some p => Parser_Parse p tokenString (keyFunc ja)
  | None => jwt_Parse tokenString (keyFunc ja)
  end.

(** [EpochNow] reads the clock; [unix] is what [time.Now().UTC().Unix()]
    gives at that moment. *)
Definition EpochNow (unix : Z) : Z := unix.

(** The range loop over the aliases (lines 56 to 61): each alias overwrites
    [tokenStr], and the first non-empty value breaks out. *)
Fixpoint aliasLoop (q : gmap string (list string)) (ps : list string)
    (tokenStr : string) : string :=
  match ps with
  | [] => tokenStr
  | p :: ps' =>
      let tokenStr := Values_Get q p in
      if negb (bool_decide (tokenStr = "")) then tokenStr
      else aliasLoop q ps' tokenStr
  end.

(** Lines 48 to 78: where the token string comes from. *)
Definition findToken (paramAliases : slice string) (r : Request) : string :=
  (* Get token from query params *)
  let tokenStr := Values_Get (URL_Query r) "jwt" in
  (* Get token from other query param aliases *)
  let tokenStr :=
    if bool_decide (tokenStr = "") && negb (is_nil paramAliases)
       && (0 <? len paramAliases)%nat
    then aliasLoop (URL_Query r) (range paramAliases) tokenStr
    else tokenStr in
  (* Get token from authorization header *)
  let tokenStr :=
    if bool_decide (tokenStr = "") then
      let bearer := Header_Get (Request_Header r) "Authorization" in
      if (7 <? String.length bearer)%nat
         && bool_decide (ToUpper (slice_str bearer 0 6) = "BEARER")
      then slice_from bearer 7
      else tokenStr
    else tokenStr in
  (* Get token from cookie *)
  let tokenStr :=
    if bool_decide (tokenStr = "") then
      match Request_Cookie r "jwt" with
      | Some cookie => Cookie_Value cookie
      | None => tokenStr
      end
    else tokenStr in
  tokenStr.

(** Lines 80 to 104: what is done with the token string.  [unix] is the
    clock the handler would read. *)
Definition verify (ja : JwtAuth) (unix : Z) (ctx : Context SigningMethod)
    (tokenStr : string) : Outcome SigningMethod :=
  (* Token is required, cya *)
  let err := if bool_decide (tokenStr = "") then Some errUnauthorized else None in
  (* Verify the token *)
  let '(tok, err) := Decode ja tokenStr in
  match err with
  | Some _ => HttpError (Error errUnauthorized) 401
  | None =>
      match tok with
      | None => NilDereference
      | Some tok =>
          if negb (Valid tok) || negb (bool_decide (Method tok = signer ja))
          then HttpError (Error errUnauthorized) 401
          else
            let serve :=
              let ctx := context_WithValue ctx "jwt" (CtxString (Raw tok)) in
              let ctx := context_WithValue ctx "jwt.token" (CtxToken tok) in
              ServeNext ctx in
            (* Check expiry via "exp" claim *)
            match assert_int64 (Claims tok !! "exp") with
            | Some exp =>
                let now := EpochNow unix in
                if (exp <? now)%Z then HttpError (Error errUnauthorized) 401
                else serve
            | None => serve
            end
      end
  end.

(** [Handle(paramAliases...)(next)] run on one request. *)
Definition Handle (ja : JwtAuth) (paramAliases : slice string) (unix : Z)
    (ctx : Context SigningMethod) (r : Request) : Outcome SigningMethod :=
  verify ja unix ctx (findToken paramAliases r).

(** [Handler(next)] run on one request: [ja.Handle("")(next)]. *)
Definition Handler (ja : JwtAuth) (unix : Z) (ctx : Context SigningMethod)
    (r : Request) : Outcome SigningMethod :=
  Handle ja (Some [""]) unix ctx r.

End jwtauth.

(** ** The probes, one by one

    The four sources of lines 48 to 78 taken apart, and the rule "first
    non-empty hit" written on its own, to compare [findToken] with. *)

Definition queryProbe (r : Request) : string :=
  Values_Get (URL_Query r) "jwt".

Definition aliasProbes (paramAliases : slice string) (r : Request) : list string :=
  map (Values_Get (URL_Query r)) (range paramAliases).

(** The test of line 67 and the slice of line 68. *)
Definition headerProbe (r : Request) : string :=
  let bearer := Header_Get (Request_Header r) "Authorization" in
  if (7 <? String.length bearer)%nat
     && bool_decide (ToUpper (slice_str bearer 0 6) = "BEARER")
  then slice_from bearer 7
  else "".

Definition cookieProbe (r : Request) : string :=
  match Request_Cookie r "jwt" with
  | Some cookie => Cookie_Value cookie
  | None => ""
  end.

Definition probes (paramAliases : slice string) (r : Request) : list string :=
  queryProbe r :: aliasProbes paramAliases r ++ [headerProbe r; cookieProbe r].

Fixpoint firstNonEmpty (candidates : list string) : string :=
  match candidates with
  | [] => ""
  | c :: rest => if bool_decide (c = "") then firstNonEmpty rest else c
  end.

(** ** Slice expressions with their bounds checks

    [s[lo:hi]] and [s[lo:]] panic unless [lo <= hi <= len(s)]; [None] is the
    panic.  [headerProbeChecked] is lines 66 to 69 with these checks and with
    the short-circuit of [&&]: the scheme slice is taken only after the
    length test. *)

Definition slice_str_checked (s : string) (lo hi : nat) : option string :=
  if (lo <=? hi)%nat && (hi <=? String.length s)%nat
  then Some (slice_str s lo hi)
  else None.

Definition slice_from_checked (s : string) (lo : nat) : option string :=
  if (lo <=? String.length s)%nat then Some (slice_from s lo) else None.

Definition headerProbeChecked (r : Request) : option string :=
  let bearer := Header_Get (Request_Header r) "Authorization" in
  if (7 <? String.length bearer)%nat then
    match slice_str_checked bearer 0 6 with
    | None => None
    | Some scheme =>
        if bool_decide (ToUpper scheme = "BEARER")
        then slice_from_checked bearer 7
        else Some ""
    end
  else Some "".

(** Request [r], read with aliases [paramAliases], carries token [s] in
    one of the four places, every earlier place being empty. *)
Inductive Carries (paramAliases : slice string) (r : Request) (s : string) : Prop :=
| ByQuery :
    queryProbe r = s -> Carries paramAliases r s
| ByAlias :
    queryProbe r = "" ->
    firstNonEmpty (aliasProbes paramAliases r) = s ->
    Carries paramAliases r s
| ByHeader :
    queryProbe r = "" ->
    Forall (fun c => c = "") (aliasProbes paramAliases r) ->
    headerProbe r = s ->
    Carries paramAliases r s
| ByCookie (cookie : Cookie) :
    queryProbe r = "" ->
    Forall (fun c => c = "") (aliasProbes paramAliases r) ->
    headerProbe r = "" ->
    Request_Cookie r "jwt" = Some cookie ->
    Cookie_Value cookie = s ->
    Carries paramAliases r s.

(** [c] is the letter [upper] in either case. *)
Definition eitherCase (upper lower c : ascii) : Prop := c = upper \/ c = lower.



(** ** What the claims speak of *)

Section notions.

Context `{L : JwtGo}.

(** The key of the selection policy: [verifyKey] when it is non-empty,
    [signKey] otherwise. *)
Definition selectedKey (ja : JwtAuth) : slice Byte.byte :=
  if (0 <? len (verifyKey ja))%nat then verifyKey ja else signKey ja.

(** The parser [Decode] runs: the injected one when there is one. *)
Definition parseWith (p : option Parser) (tokenString : string)
    (kf : Keyfunc SigningMethod) : option (Token SigningMethod) * option error :=
  match p with
  | Some p => Parser_Parse p tokenString kf
  | None => jwt_Parse tokenString kf
  end.



(** Both parsers answer the empty string with an error. *)
Definition RejectsEmptyString : Prop :=
  (forall kf, snd (jwt_Parse "" kf) <> None) /\
  (forall p kf, snd (Parser_Parse p "" kf) <> None).

(** The context the next handler gets for token [tok]. *)
Definition withToken (ctx : Context SigningMethod) (tok : Token SigningMethod)
  : Context SigningMethod :=
  context_WithValue (context_WithValue ctx "jwt" (CtxString (Raw tok)))
    "jwt.token" (CtxToken tok).

End notions.

(** What the client sees of an [http.Error] call: the message and the
    status code; nothing when the request went on to the next handler. *)
Definition response {M : Type} (o : Outcome M) : option (string * Z) :=
  match o with
  | HttpError msg code => Some (msg, code)
  | _ => None
  end.

Definition unauthorized {M : Type} : Outcome M := HttpError "unauthorized token" 401.

(** ** A stand-in for jwt-go

    A fixed set of tokens in circulation and an HMAC-like rule: a token
    verifies under the key it was signed with and under no other.  The
    parser gives the claims as JSON gives them back, an integer as a
    float64.  It is used to run the package on concrete requests. *)

Module Fixture.

Inductive Alg : Type := HS256 | RS256.

#[global] Instance Alg_eq_dec : EqDecision Alg.
Proof. solve_decision. Defined.

Definition Alg_name (m : Alg) : string :=
  match m with
  | HS256 => "HS256"
  | RS256 => "RS256"
  end.

Definition methodOf (alg : string) : option Alg :=
  if bool_decide (alg = "HS256") then Some HS256
  else if bool_decide (alg = "RS256") then Some RS256
  else None.

Definition key (text : string) : slice Byte.byte := Some (list_byte_of_string text).

Definition header (m : Alg) : gmap string Value :=
  <["typ" := VString "JWT"]> {[ "alg" := VString (Alg_name m) ]}.

Definition newToken (m : Alg) : Token Alg :=
  mkToken "" (Some m) (header m) ∅ "" false.

(** The tokens in circulation: the token string, the method of its header,
    the claims it was signed over and the key that signed it. *)
Record Issued : Type := mkIssued {
  issued_string : string;
  issued_method : Alg;
  issued_claims : gmap string Value;
  issued_key : list Byte.byte
}.

Definition circulation : list Issued :=
  [ mkIssued "hs256.alice.sig-secret" HS256
      {[ "sub" := VString "alice" ]} (list_byte_of_string "secret");
    mkIssued "hs256.alice-exp-1000.sig-secret" HS256
      (<["exp" := VInt64 1000]> {[ "sub" := VString "alice" ]})
      (list_byte_of_string "secret");
    mkIssued "hs256.alice-exp-text.sig-secret" HS256
      (<["exp" := VString "1000"]> {[ "sub" := VString "alice" ]})
      (list_byte_of_string "secret");
    mkIssued "hs256.mallory.sig-public" HS256
      {[ "sub" := VString "mallory" ]} (list_byte_of_string "public") ].

(** The bits of the float64 nearest to the integer [n] (round to nearest,
    ties to even), for [n] within the int64 range. *)
Definition float64_of_int (n : Z) : Z :=
  if (n =? 0)%Z then 0%Z
  else
    let a := Z.abs n in
    let e := Z.log2 a in
    let sign := if (n <? 0)%Z then (2 ^ 63)%Z else 0%Z in
    let mantissa :=
      if (e <=? 52)%Z then (a * 2 ^ (52 - e))%Z
      else
        let q := (a / 2 ^ (e - 52))%Z in
        let rest := (a mod 2 ^ (e - 52))%Z in
        let half := (2 ^ (e - 53))%Z in
        if (half <? rest)%Z || ((rest =? half)%Z && Z.odd q) then (q + 1)%Z else q in
    (sign + (1023 + e) * 2 ^ 52 + (mantissa - 2 ^ 52))%Z.

(** A claim value after it was written as JSON and read back. *)
Definition json (v : Value) : Value :=
  match v with
  | VInt n | VInt64 n => VFloat64 (float64_of_int n)
  | _ => v
  end.

Definition serialisable (v : Value) : bool :=
  match v with
  | VChan _ => false
  | _ => true
  end.

Definition sign (t : Token Alg) (k : slice Byte.byte) : string * option error :=
  if negb (forallb serialisable (map snd (map_to_list (Claims t))))
  then ("", Some "json: unsupported type")
  else
    match find (fun i => bool_decide (Some (issued_method i) = Method t)
                         && bool_decide (issued_claims i = Claims t)
                         && bool_decide (issued_key i = range k)) circulation with
    | Some i => (issued_string i, None)
    | None => ("", Some "key is invalid")
    end.

Definition parse (tokenString : string) (keyFunc : Keyfunc Alg)
  : option (Token Alg) * option error :=
  match find (fun i => bool_decide (issued_string i = tokenString)) circulation with
  | None => (None, Some "token contains an invalid number of segments")
  | Some i =>
      let t := mkToken tokenString (Some (issued_method i)) (header (issued_method i))
                 (json <$> issued_claims i) "sig" false in
      match keyFunc t with
      | (_, Some e) => (Some t, Some e)
      | (k, None) =>
          if bool_decide (range k = issued_key i)
          then (Some (mkToken (Raw t) (Method t) (Header t) (Claims t) (Signature t) true),
                None)
          else (Some t, Some "signature is invalid")
      end
  end.

#[global] Instance lib : JwtGo := {|
  SigningMethod := Alg;
  Parser := unit;
  GetSigningMethod := methodOf;
  jwt_New := newToken;
  SignedString := sign;
  jwt_Parse := parse;
  Parser_Parse := fun _ => parse
|}.

End Fixture.

(** The package on the stand-in library: authenticators and requests. *)

Definition hmacAuth : @JwtAuth Fixture.lib :=
  New "HS256" (Fixture.key "secret") None.


(** An RSA authenticator; its verify key is the public one. *)
Definition rsaAuth : @JwtAuth Fixture.lib :=
  New "RS256" (Fixture.key "private") (Fixture.key "public").

Definition aliceClaims : gmap string Value := {[ "sub" := VString "alice" ]}.

(** The token in circulation for [aliceClaims], as the parser returns it
    once verified. *)
Definition aliceToken : Token (@SigningMethod Fixture.lib) :=
  mkToken "hs256.alice.sig-secret" (Some Fixture.HS256) (Fixture.header Fixture.HS256)
    aliceClaims "sig" true.




Definition noRequest : Request := mkRequest ∅ ∅ [].

Definition headerRequest (value : string) : Request :=
  mkRequest ∅ {[ "Authorization" := [value] ]} [].

Definition cookieRequest (tokenStr : string) : Request :=
  mkRequest ∅ ∅ [mkCookie "jwt" tokenStr].

Definition queryRequest (tokenStr : string) : Request :=
  mkRequest {[ "jwt" := [tokenStr] ]} ∅ [].

(** ** Lemmas on the package *)

Section lemmas.

Context `{L : JwtGo}.

Lemma keyFunc_selectedKey (ja : JwtAuth) (t : Token SigningMethod) :
  keyFunc ja t = (selectedKey ja, None).
Proof.
  unfold keyFunc, selectedKey.
  destruct (verifyKey ja) as [[|b k]|]; reflexivity.
Qed.

Lemma Decode_parseWith (ja : JwtAuth) (tokenString : string) :
  Decode ja tokenString = parseWith (parser ja) tokenString (keyFunc ja).
Proof. unfold Decode, parseWith. destruct (parser ja); reflexivity. Qed.

Lemma firstNonEmpty_app (l1 l2 : list string) :
  firstNonEmpty (l1 ++ l2) =
  if bool_decide (firstNonEmpty l1 = "") then firstNonEmpty l2 else firstNonEmpty l1.
Proof.
  induction l1 as [|c l1 IH]; simpl.
  - reflexivity.
  - destruct (bool_decide (c = "")) eqn:Hc.
    + exact IH.
    + rewrite Hc. reflexivity.
Qed.

Lemma firstNonEmpty_all_empty (l : list string) :
  Forall (fun c => c = "") l -> firstNonEmpty l = "".
Proof.
  induction 1 as [|c l Hc _ IH]; simpl.
  - reflexivity.
  - subst c. exact IH.
Qed.

Lemma aliasLoop_firstNonEmpty (q : gmap string (list string)) (ps : list string) :
  aliasLoop q ps "" = firstNonEmpty (map (Values_Get q) ps).
Proof.
  induction ps as [|p ps IH]; simpl.
  - reflexivity.
  - destruct (bool_decide (Values_Get q p = "")) eqn:Hp; simpl.
    + apply bool_decide_eq_true in Hp. rewrite Hp. exact IH.
    + reflexivity.
Qed.

(** [findToken] is the first non-empty probe. *)
Lemma findToken_probes (paramAliases : slice string) (r : Request) :
  findToken paramAliases r = firstNonEmpty (probes paramAliases r).
Proof.
  unfold findToken, probes, queryProbe, aliasProbes, headerProbe, cookieProbe.
  simpl firstNonEmpty.
  destruct (bool_decide (Values_Get (URL_Query r) "jwt" = "")) eqn:Hq; simpl.
  2: { rewrite !Hq. reflexivity. }
  apply bool_decide_eq_true in Hq. rewrite Hq.
  rewrite firstNonEmpty_app. simpl firstNonEmpty.
  assert (Ha : (if negb (is_nil paramAliases) && (0 <? len paramAliases)%nat
                then aliasLoop (URL_Query r) (range paramAliases) ""
                else "")
               = firstNonEmpty (map (Values_Get (URL_Query r)) (range paramAliases))).
  { destruct paramAliases as [[|p ps]|]; simpl; try reflexivity.
    change (aliasLoop (URL_Query r) (p :: ps) ""
            = firstNonEmpty (map (Values_Get (URL_Query r)) (p :: ps))).
    apply aliasLoop_firstNonEmpty. }
  rewrite Ha.
  destruct (bool_decide (firstNonEmpty (map (Values_Get (URL_Query r))
                                            (range paramAliases)) = "")) eqn:Hal.
  2: { rewrite !Hal. reflexivity. }
  apply bool_decide_eq_true in Hal. rewrite Hal.
  set (h := if (7 <? String.length (Header_Get (Request_Header r) "Authorization"))%nat
               && bool_decide (ToUpper (slice_str (Header_Get (Request_Header r)
                                                     "Authorization") 0 6) = "BEARER")
            then slice_from (Header_Get (Request_Header r) "Authorization") 7
            else "").
  destruct (bool_decide (h = "")) eqn:Hh.
  2: { rewrite ?Hh. reflexivity. }
  apply bool_decide_eq_true in Hh. rewrite Hh.
  destruct (Request_Cookie r "jwt") as [c|]; simpl.
  - destruct (bool_decide (Cookie_Value c = "")) eqn:Hc; [|reflexivity].
    apply bool_decide_eq_true in Hc. exact Hc.
  - reflexivity.
Qed.

(** An error from [Decode] ends the request. *)
Lemma verify_error (ja : JwtAuth) (unix : Z) (ctx : Context SigningMethod)
    (tokenStr : string) (tok : option (Token SigningMethod)) (e : error) :
  Decode ja tokenStr = (tok, Some e) ->
  verify ja unix ctx tokenStr = unauthorized.
Proof. intros H. unfold verify. rewrite H. reflexivity. Qed.

(** What [verify] does with a token that [Decode] returned without error. *)
Lemma verify_decoded (ja : JwtAuth) (unix : Z) (ctx : Context SigningMethod)
    (tokenStr : string) (tok : Token SigningMethod) :
  Decode ja tokenStr = (Some tok, None) ->
  verify ja unix ctx tokenStr =
  if negb (Valid tok) || negb (bool_decide (Method tok = signer ja)) then unauthorized
  else match assert_int64 (Claims tok !! "exp") with
       | Some exp => if (exp <? unix)%Z then unauthorized else ServeNext (withToken ctx tok)
       | None => ServeNext (withToken ctx tok)
       end.
Proof. intros H. unfold verify. rewrite H. reflexivity. Qed.

(** The expiry check of lines 92 to 99 on an [exp] claim of dynamic type
    int64: below the clock the request is turned away, at or above it the
    request goes on. *)
Lemma verify_int64_exp (ja : JwtAuth) (unix : Z) (ctx : Context SigningMethod)
    (tokenStr : string) (tok : Token SigningMethod) (exp : Z) :
  Decode ja tokenStr = (Some tok, None) ->
  Valid tok = true ->
  Method tok = signer ja ->
  Claims tok !! "exp" = Some (VInt64 exp) ->
  verify ja unix ctx tokenStr =
  if (exp <? unix)%Z then unauthorized else ServeNext (withToken ctx tok).
Proof.
  intros Hd Hv Hm He.
  rewrite (verify_decoded _ _ _ _ _ Hd), Hv, (bool_decide_eq_true_2 _ Hm), He.
  reflexivity.
Qed.

(** Every answer of the filter is the one unauthorized answer. *)
Lemma verify_response (ja : JwtAuth) (unix : Z) (ctx : Context SigningMethod)
    (tokenStr : string) (x : string * Z) :
  response (verify ja unix ctx tokenStr) = Some x -> x = ("unauthorized token", 401%Z).
Proof.
  unfold verify.
  destruct (Decode ja tokenStr) as [tok [e|]]; simpl.
  - intros [= <-]. reflexivity.
  - destruct tok as [tok|]; simpl; [|discriminate].
    destruct (negb (Valid tok) || negb (bool_decide (Method tok = signer ja))); simpl.
    + intros [= <-]. reflexivity.
    + destruct (assert_int64 (Claims tok !! "exp")) as [exp|]; simpl; [|discriminate].
      destruct (exp <? EpochNow unix)%Z; simpl; [|discriminate].
      intros [= <-]. reflexivity.
Qed.

(** Slices of a string that is given as a concatenation. *)
Lemma substring_0_length (s : string) : substring 0 (String.length s) s = s.
Proof. induction s as [|c s IH]; simpl; congruence. Qed.

Lemma length_substring_0 (s : string) (n : nat) :
  n <= String.length s -> String.length (substring 0 n s) = n.
Proof.
  revert n. induction s as [|c s IH]; intros [|n] Hn; simpl in *; try lia.
  rewrite IH; lia.
Qed.

Lemma append_cons (c : ascii) (s1 s2 : string) :
  String c s1 +:+ s2 = String c (s1 +:+ s2).
Proof. reflexivity. Qed.

Lemma length_append (s1 s2 : string) :
  String.length (s1 +:+ s2) = String.length s1 + String.length s2.
Proof.
  induction s1 as [|c s1 IH]; [reflexivity|].
  rewrite append_cons. simpl. congruence.
Qed.

Lemma substring_app_prefix (s1 s2 : string) :
  substring 0 (String.length s1) (s1 +:+ s2) = s1.
Proof.
  induction s1 as [|c s1 IH].
  - change ("" +:+ s2) with s2. destruct s2; reflexivity.
  - rewrite append_cons. simpl. congruence.
Qed.

Lemma substring_app_skip (s1 s2 : string) (k m : nat) :
  substring (String.length s1 + k) m (s1 +:+ s2) = substring k m s2.
Proof.
  induction s1 as [|c s1 IH]; [reflexivity|].
  rewrite append_cons. simpl. exact IH.
Qed.

Lemma substring_split (s : string) (n : nat) :
  n < String.length s ->
  exists c, s = substring 0 n s +:+ String c (substring (S n) (String.length s - S n) s).
Proof.
  revert n. induction s as [|a s IH]; intros n Hn; simpl in *; [lia|].
  destruct n as [|n].
  - exists a. rewrite Nat.sub_0_r, substring_0_length. reflexivity.
  - destruct (IH n) as [c Hc]; [lia|].
    exists c. rewrite append_cons. f_equal. exact Hc.
Qed.

(** The first non-empty candidate is empty only when all are. *)
Lemma firstNonEmpty_empty_iff (l : list string) :
  firstNonEmpty l = "" <-> Forall (fun c => c = "") l.
Proof.
  split; [|apply firstNonEmpty_all_empty].
  induction l as [|c l IH]; simpl; intros H.
  - constructor.
  - destruct (bool_decide (c = "")) eqn:Hc.
    + apply bool_decide_eq_true in Hc. constructor; auto.
    + apply bool_decide_eq_false in Hc. contradiction.
Qed.

(** [findToken] in four cases. *)
Lemma findToken_query (paramAliases : slice string) (r : Request) :
  queryProbe r <> "" -> findToken paramAliases r = queryProbe r.
Proof.
  intros Hq. rewrite findToken_probes. unfold probes. simpl.
  rewrite (bool_decide_eq_false_2 _ Hq). reflexivity.
Qed.

Lemma findToken_after_query (paramAliases : slice string) (r : Request) :
  queryProbe r = "" ->
  findToken paramAliases r =
  firstNonEmpty (aliasProbes paramAliases r ++ [headerProbe r; cookieProbe r]).
Proof.
  intros Hq. rewrite findToken_probes. unfold probes. simpl.
  rewrite (bool_decide_eq_true_2 _ Hq). reflexivity.
Qed.

Lemma findToken_after_aliases (paramAliases : slice string) (r : Request) :
  queryProbe r = "" ->
  Forall (fun c => c = "") (aliasProbes paramAliases r) ->
  findToken paramAliases r = firstNonEmpty [headerProbe r; cookieProbe r].
Proof.
  intros Hq Ha. rewrite (findToken_after_query _ _ Hq), firstNonEmpty_app.
  rewrite (firstNonEmpty_all_empty _ Ha). reflexivity.
Qed.

(** What stands behind a call of the next handler. *)
Lemma verify_served (ja : JwtAuth) (unix : Z) (ctx ctx' : Context SigningMethod)
    (tokenStr : string) :
  verify ja unix ctx tokenStr = ServeNext ctx' ->
  exists tok,
    Decode ja tokenStr = (Some tok, None) /\
    Valid tok = true /\
    Method tok = signer ja /\
    ctx' = withToken ctx tok.
Proof.
  unfold verify.
  destruct (Decode ja tokenStr) as [[tok|] [e|]]; try discriminate.
  destruct (Valid tok) eqn:Hv; simpl; [|discriminate].
  destruct (bool_decide (Method tok = signer ja)) eqn:Hm; simpl; [|discriminate].
  apply bool_decide_eq_true in Hm.
  intros H. exists tok. repeat split; auto.
  destruct (assert_int64 (Claims tok !! "exp")) as [exp|].
  - destruct (exp <? EpochNow unix)%Z; [discriminate|]. injection H as <-. reflexivity.
  - injection H as <-. reflexivity.
Qed.

(** Reading the context the next handler gets. *)
Lemma context_Value_withToken (ctx : Context SigningMethod)
    (tok : Token SigningMethod) (key : string) :
  key <> "jwt" -> key <> "jwt.token" ->
  context_Value (withToken ctx tok) key = context_Value ctx key.
Proof.
  intros H1 H2. unfold withToken, context_WithValue. simpl.
  destruct (decide ("jwt.token" = key)) as [E|_]; [congruence|].
  destruct (decide ("jwt" = key)) as [E|_]; [congruence|].
  reflexivity.
Qed.

(** The bytes that upper-case to one of the letters of BEARER. *)
Lemma upper_byte_B (c : ascii) :
  upper_byte c = "B"%char <-> eitherCase "B" "b" c.
Proof.
  unfold eitherCase.
  destruct c as [[] [] [] [] [] [] [] []]; vm_compute;
    split; intros H; try discriminate H; try (destruct H as [H|H]; discriminate H); auto.
Qed.

Lemma upper_byte_E (c : ascii) :
  upper_byte c = "E"%char <-> eitherCase "E" "e" c.
Proof.
  unfold eitherCase.
  destruct c as [[] [] [] [] [] [] [] []]; vm_compute;
    split; intros H; try discriminate H; try (destruct H as [H|H]; discriminate H); auto.
Qed.

Lemma upper_byte_A (c : ascii) :
  upper_byte c = "A"%char <-> eitherCase "A" "a" c.
Proof.
  unfold eitherCase.
  destruct c as [[] [] [] [] [] [] [] []]; vm_compute;
    split; intros H; try discriminate H; try (destruct H as [H|H]; discriminate H); auto.
Qed.

Lemma upper_byte_R (c : ascii) :
  upper_byte c = "R"%char <-> eitherCase "R" "r" c.
Proof.
  unfold eitherCase.
  destruct c as [[] [] [] [] [] [] [] []]; vm_compute;
    split; intros H; try discriminate H; try (destruct H as [H|H]; discriminate H); auto.
Qed.

End lemmas.

(** ** The authenticator: Encode, Decode, keyFunc *)

Section authenticator.

Context `{L : JwtGo}.


(** C2.  The key function that [Decode] hands to the parser answers, for
    every token, with [verifyKey] when [verifyKey] is non-empty and with
    [signKey] otherwise, and with no error; [Decode] passes that key function
    to whichever parser it runs. *)
Theorem C2_verification_key (ja : JwtAuth) (tokenString : string) :
  let key := if (0 <? len (verifyKey ja))%nat then verifyKey ja else signKey ja in
  exists kf : Keyfunc SigningMethod,
    (forall t, kf t = (key, None)) /\
    Decode ja tokenString =
      match parser ja with
      | Some p => Parser_Parse p tokenString kf
      | None => jwt_Parse tokenString kf
      end.
Proof.
  intros key. exists (keyFunc ja). split.
  - intros t. apply keyFunc_selectedKey.
  - reflexivity.
Qed.


End authenticator.

(** ** The filter: Handle and Handler *)

Section filter.

Context `{L : JwtGo}.

(** C3.  When the token string of the request decodes to a token whose
    method is not the authenticator's signer, the filter answers 401 with the
    unauthorized message and does not call the next handler, whatever the
    token's [Valid] flag and whatever error came with it. *)
Theorem C3_method_mismatch_rejected
    (ja : JwtAuth) (paramAliases : slice string) (unix : Z)
    (ctx : Context SigningMethod) (r : Request)
    (tok : Token SigningMethod) (err : option error) :
  Decode ja (findToken paramAliases r) = (Some tok, err) ->
  Method tok <> signer ja ->
  Handle ja paramAliases unix ctx r = HttpError "unauthorized token" 401.
Proof.
  intros Hd Hm. unfold Handle, verify. rewrite Hd.
  destruct err as [e|]; [reflexivity|].
  rewrite (bool_decide_eq_false_2 _ Hm).
  rewrite orb_true_r. reflexivity.
Qed.


(** C6.  The token string is the first non-empty one among, in this order,
    the query parameter [jwt], the alias parameters as configured, the
    Authorization header probe and the cookie [jwt], and it is that string
    the filter verifies.  A non-empty [jwt] parameter is the token whatever
    the aliases, the header and the cookies hold; with an empty [jwt]
    parameter a non-empty alias value is. *)
Theorem C6_probe_order
    (ja : JwtAuth) (paramAliases : slice string) (unix : Z)
    (ctx : Context SigningMethod) (r : Request) :
  findToken paramAliases r = firstNonEmpty (probes paramAliases r) /\
  Handle ja paramAliases unix ctx r
    = verify ja unix ctx (firstNonEmpty (probes paramAliases r)) /\
  (queryProbe r <> "" ->
     findToken paramAliases r = queryProbe r /\
     Handle ja paramAliases unix ctx r = verify ja unix ctx (queryProbe r)) /\
  (queryProbe r = "" -> firstNonEmpty (aliasProbes paramAliases r) <> "" ->
     findToken paramAliases r = firstNonEmpty (aliasProbes paramAliases r)).
Proof.
  pose proof (findToken_probes paramAliases r) as Hf.
  split; [exact Hf|]. split; [unfold Handle; rewrite Hf; reflexivity|]. split.
  - intros Hq.
    assert (Ht : findToken paramAliases r = queryProbe r).
    { rewrite Hf. unfold probes. simpl.
      rewrite (bool_decide_eq_false_2 _ Hq). reflexivity. }
    split; [exact Ht|]. unfold Handle. rewrite Ht. reflexivity.
  - intros Hq Ha. rewrite Hf. unfold probes. simpl.
    rewrite (bool_decide_eq_true_2 _ Hq), firstNonEmpty_app.
    rewrite (bool_decide_eq_false_2 _ Ha). reflexivity.
Qed.

(** C7.  With a library whose parsers answer the empty string with an
    error: when the [jwt] parameter, every alias parameter, the header probe
    and the cookie probe are all empty, the filter answers 401 with the
    unauthorized message and does not call the next handler. *)
Theorem C7_no_token_unauthorized
    (ja : JwtAuth) (paramAliases : slice string) (unix : Z)
    (ctx : Context SigningMethod) (r : Request) :
  RejectsEmptyString ->
  queryProbe r = "" ->
  Forall (fun c => c = "") (aliasProbes paramAliases r) ->
  headerProbe r = "" ->
  cookieProbe r = "" ->
  Handle ja paramAliases unix ctx r = HttpError "unauthorized token" 401.
Proof.
  intros [Hjwt Hparser] Hq Ha Hh Hc.
  assert (Ht : findToken paramAliases r = "").
  { rewrite findToken_probes. unfold probes. simpl.
    rewrite (bool_decide_eq_true_2 _ Hq), firstNonEmpty_app.
    rewrite (firstNonEmpty_all_empty _ Ha). simpl.
    rewrite (bool_decide_eq_true_2 _ Hh), (bool_decide_eq_true_2 _ Hc). reflexivity. }
  unfold Handle. rewrite Ht.
  destruct (Decode ja "") as [tok [e|]] eqn:Hd.
  - apply (verify_error _ _ _ _ _ _ Hd).
  - exfalso. unfold Decode in Hd.
    destruct (parser ja) as [p|].
    + apply (Hparser p (keyFunc ja)). rewrite Hd. reflexivity.
    + apply (Hjwt (keyFunc ja)). rewrite Hd. reflexivity.
Qed.

End filter.

(** C8.  Any two requests the filter answers itself, under any two
    authenticators, alias lists, clocks and libraries, get the same answer:
    status 401 with the message "unauthorized token". *)
Theorem C8_uniform_rejection
    (L1 L2 : JwtGo)
    (ja1 : @JwtAuth L1) (aliases1 : slice string) (unix1 : Z)
    (ctx1 : Context (@SigningMethod L1)) (r1 : Request)
    (ja2 : @JwtAuth L2) (aliases2 : slice string) (unix2 : Z)
    (ctx2 : Context (@SigningMethod L2)) (r2 : Request)
    (x1 x2 : string * Z) :
  response (Handle ja1 aliases1 unix1 ctx1 r1) = Some x1 ->
  response (Handle ja2 aliases2 unix2 ctx2 r2) = Some x2 ->
  x1 = x2 /\ x1 = ("unauthorized token", 401%Z).
Proof.
  intros H1 H2.
  apply verify_response in H1. apply verify_response in H2.
  subst. split; reflexivity.
Qed.

(** ** Further properties of the filter *)

Section further.

Context `{L : JwtGo}.

(** The next handler is called only for a verified token: when the filter
    calls it, [Decode] returned the token without error, the token is valid,
    its method is the signer, an int64 [exp] claim is not below the clock, and
    the context is the incoming one extended with the raw string under "jwt"
    and the token under "jwt.token". *)
Theorem served_only_verified
    (ja : JwtAuth) (paramAliases : slice string) (unix : Z)
    (ctx ctx' : Context SigningMethod) (r : Request) :
  Handle ja paramAliases unix ctx r = ServeNext ctx' ->
  exists tok,
    Decode ja (findToken paramAliases r) = (Some tok, None) /\
    Valid tok = true /\
    Method tok = signer ja /\
    (forall exp, Claims tok !! "exp" = Some (VInt64 exp) -> (unix <= exp)%Z) /\
    ctx' = withToken ctx tok /\
    context_Value ctx' "jwt" = Some (CtxString (Raw tok)) /\
    context_Value ctx' "jwt.token" = Some (CtxToken tok).
Proof.
  unfold Handle, verify.
  destruct (Decode ja (findToken paramAliases r)) as [[tok|] [e|]]; try discriminate.
  destruct (Valid tok) eqn:Hv; simpl; [|discriminate].
  destruct (bool_decide (Method tok = signer ja)) eqn:Hm; simpl; [|discriminate].
  apply bool_decide_eq_true in Hm.
  intros H. exists tok.
  assert (Hctx : ctx' = withToken ctx tok /\
                 forall exp, Claims tok !! "exp" = Some (VInt64 exp) -> (unix <= exp)%Z).
  { destruct (Claims tok !! "exp") as [[| | | n | | |]|]; simpl in H;
      try (injection H as <-; split; [reflexivity|intros; discriminate]).
    unfold EpochNow in H. destruct (n <? unix)%Z eqn:Hlt; [discriminate|].
    injection H as <-. split; [reflexivity|].
    intros exp [= <-]. apply Z.ltb_ge. exact Hlt. }
  destruct Hctx as [-> Hexp].
  repeat split; auto.
Qed.

(** What the header probe takes, for a non-empty token: the header value is
    six bytes that upper-case to BEARER, one more byte, whatever it is, and
    then the token. *)
Theorem headerProbe_characterised (r : Request) (tok : string) :
  tok <> "" ->
  headerProbe r = tok <->
  exists scheme sep,
    Header_Get (Request_Header r) "Authorization" = scheme +:+ String sep tok /\
    String.length scheme = 6 /\
    ToUpper scheme = "BEARER".
Proof.
  intros Htok. unfold headerProbe, slice_str, slice_from.
  set (bearer := Header_Get (Request_Header r) "Authorization").
  split.
  - destruct (7 <? String.length bearer)%nat eqn:Hlen; simpl;
      [|intros E; exfalso; apply Htok; symmetry; exact E].
    destruct (bool_decide (ToUpper (substring 0 6 bearer) = "BEARER")) eqn:Hup;
      [|intros E; exfalso; apply Htok; symmetry; exact E].
    apply Nat.ltb_lt in Hlen. apply bool_decide_eq_true in Hup.
    intros Hsub.
    destruct (substring_split bearer 6) as [sep Hsplit]; [lia|].
    exists (substring 0 6 bearer), sep. rewrite <- Hsub. split; [exact Hsplit|].
    split; [apply length_substring_0; lia|exact Hup].
  - intros (scheme & sep & Hb & Hl & Hup).
    assert (Hlen : String.length bearer = 7 + String.length tok).
    { rewrite Hb, length_append, Hl. reflexivity. }
    assert (Hpos : 0 < String.length tok) by (destruct tok; [congruence|simpl; lia]).
    assert (Hlt : (7 <? String.length bearer)%nat = true) by (apply Nat.ltb_lt; lia).
    rewrite Hlt. change (6 - 0) with 6. simpl andb.
    assert (Hscheme : substring 0 6 bearer = scheme).
    { rewrite Hb, <- Hl. apply substring_app_prefix. }
    rewrite Hscheme, (bool_decide_eq_true_2 _ Hup).
    rewrite Hlen, Hb. replace (7 + String.length tok - 7) with (String.length tok) by lia.
    change 7 with (6 + 1). rewrite <- Hl, substring_app_skip. simpl.
    apply substring_0_length.
Qed.

(** [Handler] and [Handle()] agree on the requests that carry no value
    under the empty parameter name. *)
Theorem Handler_without_empty_name
    (ja : JwtAuth) (unix : Z) (ctx : Context SigningMethod) (r : Request) :
  Values_Get (URL_Query r) "" = "" ->
  Handler ja unix ctx r = Handle ja None unix ctx r.
Proof.
  intros He. unfold Handler, Handle.
  rewrite !findToken_probes. unfold probes, aliasProbes. simpl.
  rewrite He. reflexivity.
Qed.

End further.

(** ** The rest of the package: constructors, edge cases, frames *)

Section coverage.

Context `{L : JwtGo}.

(** The handler dereferences a nil token exactly when the parser returns a
    nil token together with a nil error.  A nil token that comes with an
    error, which is how a malformed string comes back, is never touched: the
    error test of line 87 is evaluated first. *)
Theorem nil_dereference_iff
    (ja : JwtAuth) (paramAliases : slice string) (unix : Z)
    (ctx : Context SigningMethod) (r : Request) :
  Handle ja paramAliases unix ctx r = NilDereference <->
  Decode ja (findToken paramAliases r) = (None, None).
Proof.
  unfold Handle, verify.
  destruct (Decode ja (findToken paramAliases r)) as [[tok|] [e|]];
    split; intros H; try discriminate H; try reflexivity.
  exfalso. revert H.
  destruct (negb (Valid tok) || negb (bool_decide (Method tok = signer ja)));
    [discriminate|].
  destruct (assert_int64 (Claims tok !! "exp")) as [exp|]; [|discriminate].
  destruct (exp <? EpochNow unix)%Z; discriminate.
Qed.

(** The context passed on keeps every value of the incoming one, except
    under the two keys the filter writes, "jwt" and "jwt.token". *)
Theorem context_preserved
    (ja : JwtAuth) (paramAliases : slice string) (unix : Z)
    (ctx ctx' : Context SigningMethod) (r : Request) (key : string) :
  Handle ja paramAliases unix ctx r = ServeNext ctx' ->
  key <> "jwt" -> key <> "jwt.token" ->
  context_Value ctx' key = context_Value ctx key.
Proof.
  intros H H1 H2.
  apply verify_served in H as (tok & _ & _ & _ & ->).
  apply context_Value_withToken; assumption.
Qed.

(** The incoming context has no part in the decision: under two contexts
    the filter gives the same answer to the client, and if it serves the
    request under one it serves it under the other, for the same token. *)
Theorem decision_independent_of_context
    (ja : JwtAuth) (paramAliases : slice string) (unix : Z)
    (ctx1 ctx2 : Context SigningMethod) (r : Request) :
  response (Handle ja paramAliases unix ctx1 r)
    = response (Handle ja paramAliases unix ctx2 r) /\
  (forall ctx1', Handle ja paramAliases unix ctx1 r = ServeNext ctx1' ->
     exists tok, ctx1' = withToken ctx1 tok /\
                 Handle ja paramAliases unix ctx2 r = ServeNext (withToken ctx2 tok)).
Proof.
  unfold Handle, verify.
  destruct (Decode ja (findToken paramAliases r)) as [[tok|] [e|]];
    try (split; [reflexivity|discriminate]).
  destruct (negb (Valid tok) || negb (bool_decide (Method tok = signer ja)));
    [split; [reflexivity|discriminate]|].
  destruct (assert_int64 (Claims tok !! "exp")) as [exp|].
  - destruct (exp <? EpochNow unix)%Z; [split; [reflexivity|discriminate]|].
    split; [reflexivity|]. intros ctx1' [= <-]. exists tok. split; reflexivity.
  - split; [reflexivity|]. intros ctx1' [= <-]. exists tok. split; reflexivity.
Qed.

(** No token string is found exactly when the [jwt] parameter, every alias
    parameter, the header probe and the cookie probe are all empty. *)
Theorem findToken_empty_iff (paramAliases : slice string) (r : Request) :
  findToken paramAliases r = "" <->
  queryProbe r = "" /\
  Forall (fun c => c = "") (aliasProbes paramAliases r) /\
  headerProbe r = "" /\
  cookieProbe r = "".
Proof.
  rewrite findToken_probes, firstNonEmpty_empty_iff. unfold probes.
  rewrite Forall_cons, Forall_app, Forall_cons, Forall_cons.
  split.
  - intros (Hq & Ha & Hh & Hc & _). auto.
  - intros (Hq & Ha & Hh & Hc). repeat split; auto.
Qed.

(** The aliases count only through their first non-empty value: two alias
    lists with the same first hit on a request give the same token string and
    the same outcome.  So a nil list and an empty one are the same, an alias
    without a value can be left out, and aliases after the first hit are not
    read. *)
Theorem aliases_count_through_first_hit
    (ja : JwtAuth) (aliases1 aliases2 : slice string) (unix : Z)
    (ctx : Context SigningMethod) (r : Request) :
  firstNonEmpty (aliasProbes aliases1 r) = firstNonEmpty (aliasProbes aliases2 r) ->
  findToken aliases1 r = findToken aliases2 r /\
  Handle ja aliases1 unix ctx r = Handle ja aliases2 unix ctx r.
Proof.
  intros H.
  assert (Ht : findToken aliases1 r = findToken aliases2 r).
  { rewrite !findToken_probes. unfold probes. simpl.
    rewrite !firstNonEmpty_app, H. reflexivity. }
  split; [exact Ht|]. unfold Handle. rewrite Ht. reflexivity.
Qed.

(** A token has the same fate wherever it travels: two requests that carry
    the same non-empty token, each in any of the four places (with the
    earlier places empty), get the same outcome from the same authenticator
    at the same clock.  What the later places hold makes no difference. *)
Theorem carriers_equivalent
    (ja : JwtAuth) (aliases1 aliases2 : slice string) (unix : Z)
    (ctx : Context SigningMethod) (r1 r2 : Request) (s : string) :
  s <> "" ->
  Carries aliases1 r1 s ->
  Carries aliases2 r2 s ->
  Handle ja aliases1 unix ctx r1 = Handle ja aliases2 unix ctx r2.
Proof.
  intros Hs H1 H2.
  assert (Hfind : forall paramAliases r, Carries paramAliases r s ->
                    findToken paramAliases r = s).
  { intros paramAliases r [Hq | Hq Ha | Hq Ha Hh | c Hq Ha Hh Hc Hv].
    - rewrite findToken_query; congruence.
    - rewrite (findToken_after_query _ _ Hq), firstNonEmpty_app, Ha.
      rewrite (bool_decide_eq_false_2 _ Hs). reflexivity.
    - rewrite (findToken_after_aliases _ _ Hq Ha). simpl.
      rewrite Hh, (bool_decide_eq_false_2 _ Hs). reflexivity.
    - rewrite (findToken_after_aliases _ _ Hq Ha). simpl.
      rewrite Hh. simpl. unfold cookieProbe. rewrite Hc, Hv.
      rewrite (bool_decide_eq_false_2 _ Hs). reflexivity. }
  unfold Handle. rewrite (Hfind _ _ H1), (Hfind _ _ H2). reflexivity.
Qed.

(** [Decode] depends on the authenticator through its parser and the key
    of the selection policy only: two authenticators with the same parser and
    the same selected key decode every string alike.  So the signer has no
    part in [Decode] (the filter alone compares the token's method with it),
    and neither has the signing key once a verify key is set. *)
Theorem Decode_depends_on_selected_key (ja1 ja2 : JwtAuth) (tokenString : string) :
  parser ja1 = parser ja2 ->
  selectedKey ja1 = selectedKey ja2 ->
  Decode ja1 tokenString = Decode ja2 tokenString.
Proof.
  destruct ja1 as [sk1 vk1 m1 p1], ja2 as [sk2 vk2 m2 p2].
  unfold selectedKey, Decode, keyFunc. simpl.
  intros -> Hk.
  destruct vk1 as [[|b1 k1]|], vk2 as [[|b2 k2]|]; simpl in *;
    try rewrite Hk; reflexivity.
Qed.

(** What an authenticator made by [NewWithParser] (by [New] when the parser
    is nil) lets through.  Behind every call of the next handler there is a
    token that the given parser, or [jwt.Parse] for a nil one, returned
    without error under the verify key if that is non-empty and under the
    signing key otherwise, that is valid, and whose method is the one the
    [alg] string names. *)
Theorem NewWithParser_serves_its_method
    (alg : string) (p : option Parser) (sk vk : slice Byte.byte)
    (paramAliases : slice string) (unix : Z)
    (ctx ctx' : Context SigningMethod) (r : Request) :
  Handle (NewWithParser alg p sk vk) paramAliases unix ctx r = ServeNext ctx' ->
  exists tok,
    parseWith p (findToken paramAliases r)
      (fun _ => (if (0 <? len vk)%nat then vk else sk, None)) = (Some tok, None) /\
    Valid tok = true /\
    Method tok = GetSigningMethod alg /\
    ctx' = withToken ctx tok /\
    New alg sk vk = NewWithParser alg None sk vk.
Proof.
  intros H. apply verify_served in H as (tok & Hd & Hv & Hm & ->).
  exists tok. rewrite Decode_parseWith in Hd. simpl in Hd, Hm.
  repeat split; auto.
  rewrite <- Hd. destruct vk as [[|b k]|]; reflexivity.
Qed.

(** The header probe stays within the bounds of the header value: for every
    request, whatever the length of the Authorization header, the two slice
    expressions are taken in range, and the result is that of [headerProbe]. *)
Theorem headerProbe_in_bounds (r : Request) :
  headerProbeChecked r = Some (headerProbe r).
Proof.
  unfold headerProbeChecked, headerProbe.
  set (bearer := Header_Get (Request_Header r) "Authorization").
  destruct (7 <? String.length bearer)%nat eqn:Hlen; [|reflexivity].
  apply Nat.ltb_lt in Hlen.
  assert (Hs : slice_str_checked bearer 0 6 = Some (slice_str bearer 0 6)).
  { unfold slice_str_checked.
    replace (6 <=? String.length bearer)%nat with true
      by (symmetry; apply Nat.leb_le; lia).
    reflexivity. }
  assert (Hf : slice_from_checked bearer 7 = Some (slice_from bearer 7)).
  { unfold slice_from_checked.
    replace (7 <=? String.length bearer)%nat with true
      by (symmetry; apply Nat.leb_le; lia).
    reflexivity. }
  rewrite Hs, Hf. simpl andb.
  destruct (bool_decide (ToUpper (slice_str bearer 0 6) = "BEARER")); reflexivity.
Qed.

(** The scheme words the header probe takes are the 64 spellings of
    "Bearer" in upper and lower case: six bytes upper-case to BEARER exactly
    when they are b, e, a, r, e, r, each in either case. *)
Theorem scheme_spellings (scheme : string) :
  ToUpper scheme = "BEARER" <->
  exists c1 c2 c3 c4 c5 c6,
    scheme = String c1 (String c2 (String c3 (String c4 (String c5 (String c6 ""))))) /\
    eitherCase "B" "b" c1 /\ eitherCase "E" "e" c2 /\ eitherCase "A" "a" c3 /\
    eitherCase "R" "r" c4 /\ eitherCase "E" "e" c5 /\ eitherCase "R" "r" c6.
Proof.
  split.
  - destruct scheme as [|c1 [|c2 [|c3 [|c4 [|c5 [|c6 [|c7 rest]]]]]]];
      simpl; intros H; try discriminate H.
    injection H as H1 H2 H3 H4 H5 H6.
    exists c1, c2, c3, c4, c5, c6. split; [reflexivity|].
    rewrite <- upper_byte_B, <- !upper_byte_E, <- upper_byte_A, <- !upper_byte_R.
    auto 7.
  - intros (c1 & c2 & c3 & c4 & c5 & c6 & -> & H1 & H2 & H3 & H4 & H5 & H6).
    apply upper_byte_B in H1. apply upper_byte_E in H2. apply upper_byte_A in H3.
    apply upper_byte_R in H4. apply upper_byte_E in H5. apply upper_byte_R in H6.
    simpl. congruence.
Qed.

End coverage.

(** ** Runs on concrete requests *)

Lemma Fixture_RejectsEmptyString : @RejectsEmptyString Fixture.lib.
Proof. split; intros; discriminate. Qed.








(** A token signed with the HMAC method under the public key of [rsaAuth]
    verifies under that key, and is turned away for its method. *)
Lemma C3_method_mismatch_witness :
  Handle rsaAuth None 0 [] (queryRequest "hs256.mallory.sig-public")
  = HttpError "unauthorized token" 401.
Proof.
  eapply (C3_method_mismatch_rejected rsaAuth None 0 []
            (queryRequest "hs256.mallory.sig-public")).
  - vm_compute. reflexivity.
  - vm_compute. discriminate.
Defined.


Lemma C7_no_token_witness :
  Handle hmacAuth (Some ["token"; "access_token"]) 0 [] noRequest
  = HttpError "unauthorized token" 401.
Proof.
  apply (C7_no_token_unauthorized hmacAuth (Some ["token"; "access_token"]) 0 [] noRequest).
  - exact Fixture_RejectsEmptyString.
  - reflexivity.
  - vm_compute. repeat constructor.
  - reflexivity.
  - reflexivity.
Defined.

(** A request without a token, and a request whose token verifies but has
    another method than the signer. *)
Lemma C8_uniform_rejection_witness :
  response (Handle hmacAuth None 0 [] noRequest)
  = response (Handle rsaAuth None 1001 [] (queryRequest "hs256.mallory.sig-public")).
Proof.
  assert (H1 : response (Handle hmacAuth None 0 [] noRequest)
               = Some ("unauthorized token", 401%Z)) by (vm_compute; reflexivity).
  assert (H2 : response (Handle rsaAuth None 1001 []
                           (queryRequest "hs256.mallory.sig-public"))
               = Some ("unauthorized token", 401%Z)) by (vm_compute; reflexivity).
  rewrite H1, H2. apply (f_equal Some).
  exact (proj1 (C8_uniform_rejection Fixture.lib Fixture.lib
                  hmacAuth None 0 [] noRequest
                  rsaAuth None 1001 [] (queryRequest "hs256.mallory.sig-public")
                  _ _ H1 H2)).
Defined.

(** C5.  The byte after the scheme word is not looked at: the header
    [BearerXhs256.alice.sig-secret] has no space after "Bearer", and the
    filter takes what follows its seventh byte as the token and lets the
    request through. *)
Theorem C5_separator_not_checked :
  let r := mkRequest ∅ {[ "Authorization" := ["BearerXhs256.alice.sig-secret"] ]} [] in
  headerProbe r = "hs256.alice.sig-secret" /\
  findToken None r = "hs256.alice.sig-secret" /\
  exists ctx, Handle hmacAuth None 0 [] r = ServeNext ctx.
Proof.
  intros r. split; [|split].
  - vm_compute. reflexivity.
  - vm_compute. reflexivity.
  - eexists. vm_compute. reflexivity.
Qed.

(** C9.  [Handler] is [Handle("")], which has one alias, the empty name,
    and not [Handle()], which has none.  On a request whose query string is
    [=hs256.alice.sig-secret] (a value under the empty name) and that has no
    other token, [Handler] finds the token and calls the next handler, and
    [Handle()] answers 401. *)
Theorem C9_Handler_probes_empty_name :
  let r := mkRequest {[ "" := ["hs256.alice.sig-secret"] ]} ∅ [] in
  (forall ja unix ctx r', @Handler Fixture.lib ja unix ctx r'
                          = Handle ja (Some [""]) unix ctx r') /\
  findToken (Some [""]) r = "hs256.alice.sig-secret" /\
  findToken None r = "" /\
  (exists ctx, Handler hmacAuth 0 [] r = ServeNext ctx) /\
  Handle hmacAuth None 0 [] r = HttpError "unauthorized token" 401.
Proof.
  intros r. split; [|split; [|split; [|split]]].
  - intros ja unix ctx r'. reflexivity.
  - vm_compute. reflexivity.
  - vm_compute. reflexivity.
  - eexists. vm_compute. reflexivity.
  - vm_compute. reflexivity.
Qed.

Lemma served_only_verified_witness :
  exists tok,
    Decode hmacAuth (findToken None (queryRequest "hs256.alice.sig-secret"))
      = (Some tok, None) /\
    Valid tok = true /\
    Method tok = signer hmacAuth /\
    (forall exp, Claims tok !! "exp" = Some (VInt64 exp) -> (0 <= exp)%Z) /\
    withToken [] aliceToken = withToken [] tok /\
    context_Value (withToken [] aliceToken) "jwt" = Some (CtxString (Raw tok)) /\
    context_Value (withToken [] aliceToken) "jwt.token" = Some (CtxToken tok).
Proof.
  apply (served_only_verified hmacAuth None 0 [] (withToken [] aliceToken)
           (queryRequest "hs256.alice.sig-secret")).
  vm_compute. reflexivity.
Defined.

Lemma headerProbe_witness :
  headerProbe (mkRequest ∅ {[ "Authorization" := ["bEaReR abc"] ]} []) = "abc".
Proof.
  apply (headerProbe_characterised _ "abc"); [discriminate|].
  exists "bEaReR", " "%char. repeat split.
Defined.

Lemma Handler_without_empty_name_witness :
  Handler hmacAuth 0 [] (queryRequest "hs256.alice.sig-secret")
  = Handle hmacAuth None 0 [] (queryRequest "hs256.alice.sig-secret").
Proof.
  apply (Handler_without_empty_name hmacAuth 0 [] (queryRequest "hs256.alice.sig-secret")).
  reflexivity.
Defined.

(** A context with a value of its own, under a key the filter does not
    write. *)
Lemma context_preserved_witness :
  context_Value
    (withToken [("user", CtxString "alice")] aliceToken) "user"
  = context_Value [("user", CtxString "alice")] "user".
Proof.
  apply (context_preserved hmacAuth None 0 [("user", CtxString "alice")]
           (withToken [("user", CtxString "alice")] aliceToken)
           (queryRequest "hs256.alice.sig-secret") "user").
  - vm_compute. reflexivity.
  - discriminate.
  - discriminate.
Defined.

(** One alias that has the token, and a longer list around it. *)
Lemma aliases_count_through_first_hit_witness :
  let r := mkRequest {[ "access_token" := ["hs256.alice.sig-secret"] ]} ∅ [] in
  findToken (Some ["access_token"]) r
    = findToken (Some ["token"; "access_token"; "t"]) r /\
  Handle hmacAuth (Some ["access_token"]) 0 [] r
    = Handle hmacAuth (Some ["token"; "access_token"; "t"]) 0 [] r.
Proof.
  apply (aliases_count_through_first_hit hmacAuth
           (Some ["access_token"]) (Some ["token"; "access_token"; "t"]) 0 []
           (mkRequest {[ "access_token" := ["hs256.alice.sig-secret"] ]} ∅ [])).
  vm_compute. reflexivity.
Defined.

(** The same token in the Authorization header and in the cookie. *)
Lemma carriers_equivalent_witness :
  Handle hmacAuth None 0 [] (headerRequest "Bearer hs256.alice.sig-secret")
  = Handle hmacAuth (Some ["token"]) 0 [] (cookieRequest "hs256.alice.sig-secret").
Proof.
  apply (carriers_equivalent hmacAuth None (Some ["token"]) 0 []
           (headerRequest "Bearer hs256.alice.sig-secret")
           (cookieRequest "hs256.alice.sig-secret")
           "hs256.alice.sig-secret").
  - discriminate.
  - apply ByHeader.
    + reflexivity.
    + constructor.
    + vm_compute. reflexivity.
  - apply (ByCookie _ _ _ (mkCookie "jwt" "hs256.alice.sig-secret")).
    + reflexivity.
    + vm_compute. repeat constructor.
    + reflexivity.
    + reflexivity.
    + reflexivity.
Defined.

(** The RSA authenticator and an HMAC authenticator whose signing key is the
    public key of the first. *)
Lemma Decode_depends_on_selected_key_witness :
  Decode rsaAuth "hs256.mallory.sig-public"
  = Decode (@New Fixture.lib "HS256" (Fixture.key "public") None)
      "hs256.mallory.sig-public".
Proof.
  apply (Decode_depends_on_selected_key rsaAuth
           (@New Fixture.lib "HS256" (Fixture.key "public") None)).
  - reflexivity.
  - reflexivity.
Defined.

Lemma NewWithParser_serves_its_method_witness :
  exists tok,
    parseWith None (findToken None (queryRequest "hs256.alice.sig-secret"))
      (fun _ => (if (0 <? len (@None (list Byte.byte)))%nat
                 then None else Fixture.key "secret", None))
      = (Some tok, None) /\
    Valid tok = true /\
    Method tok = @GetSigningMethod Fixture.lib "HS256" /\
    withToken [] aliceToken = withToken [] tok /\
    @New Fixture.lib "HS256" (Fixture.key "secret") None
      = NewWithParser "HS256" None (Fixture.key "secret") None.
Proof.
  apply (NewWithParser_serves_its_method "HS256" None (Fixture.key "secret") None
           None 0 [] (withToken [] aliceToken) (queryRequest "hs256.alice.sig-secret")).
  vm_compute. reflexivity.
Defined.
